(** * errx: coded errors, their builder and the inspection helpers

    A shallow embedding of the Go package [errx] (type [Code], struct
    [Error], struct [Builder], the free functions [IsCode], [GetCode],
    [GetMessage], [Wrap], [WrapIfErr] and the constructors), together with
    the parts of the Go runtime and standard library the package leans on:
    nil pointers and the panic of a nil dereference, interface values
    holding a nil pointer, [errors.As] and the [%v] verb of [fmt]. *)

From stdpp Require Import base option strings gmap.

Open Scope string_scope.

(** ** Go runtime: results and panics *)

(** A Go call either returns or panics with a value. *)
Inductive go (A : Type) : Type :=
  | Ret (a : A)
  | Panic (v : string).
Arguments Ret {A} a.
Arguments Panic {A} v.

#[export] Instance go_ret : MRet go := fun A a => Ret a.
#[export] Instance go_bind : MBind go := fun A B k m =>
  match m with
  | Ret a => k a
  | Panic v => Panic v
  end.

Definition returns {A} (m : go A) : Prop := ∃ a, m = Ret a.

(** The text of the runtime error raised by a nil dereference. *)
Definition nil_dereference : string :=
  "runtime error: invalid memory address or nil pointer dereference".

(** A pointer [*T] to an immutable value: [None] is the nil pointer. *)
Definition ptr (T : Type) : Type := option T.

(** Reading a field through a pointer. *)
Definition deref {T} (p : ptr T) : go T :=
  match p with
  | Some v => Ret v
  | None => Panic nil_dereference
  end.

(** ** Codes *)

(** [type Code string]: any string is a code.  The empty string literal
    of the source is written [EmptyString] throughout. *)
Definition Code : Type := string.

Definition Conflict : Code := "CONFLICT".
Definition Internal : Code := "INTERNAL".
Definition NotFound : Code := "NOT_FOUND".
Definition BadRequest : Code := "BAD_REQUEST".
Definition AlreadyExists : Code := "ALREADY_EXISTS".
Definition Unauthorized : Code := "UNAUTHORIZED".
Definition Forbidden : Code := "FORBIDDEN".
Definition Timeout : Code := "TIMEOUT".
Definition Validation : Code := "VALIDATION".

(** ** Error values

    A value of the interface type [error] is the nil interface, or it has
    a dynamic type.  Two dynamic types are told apart: [*Error] of this
    package, whose pointer may itself be nil (the interface is then not
    nil: this is what [Wrap] hands back for a nil argument once the result
    is stored in an [error]), and any other type, seen through the two
    methods the package can observe, [Error()] (its text) and [Unwrap()]
    (its cause, [nil_error] when the type has no such method or it returns
    nil).  Foreign types with an [As] method of their own or with
    [Unwrap() []error] are outside the model.

    [Error] values are never mutated once allocated, so a [*Error] is
    modelled by the struct it points to and the identity of its allocation
    is left out. *)
Inductive error : Type :=
  | nil_error
  | PtrError (p : option Error)
  | Foreign (text : string) (cause : error)
with Error : Type :=
  | mkError (Code_ : Code) (Message_ : string) (Err_ : error).

Definition Error_Code (e : Error) : Code :=
  match e with mkError c _ _ => c end.
Definition Error_Message (e : Error) : string :=
  match e with mkError _ m _ => m end.
Definition Error_Err (e : Error) : error :=
  match e with mkError _ _ x => x end.

(** [err == nil] on an interface value: only the nil interface is nil. *)
Definition is_nil (err : error) : bool :=
  match err with
  | nil_error => true
  | _ => false
  end.

(** The conversion of a [*Error] to [error] made at a [return] or at a
    call: the pointer is boxed with its type, nil or not. *)
Definition as_error (p : ptr Error) : error := PtrError p.

(** ** Standard library: errors.As and fmt *)

(** [errors.As(err, &e)] for [var e *Error]: [None] when it returns false,
    [Some p] when it returns true and has stored [p] in [e].  The loop
    stops at the first value whose dynamic type is [*Error], without
    looking at the pointer, and otherwise follows [Unwrap]. *)
Fixpoint errors_As (err : error) : option (ptr Error) :=
  match err with
  | nil_error => None
  | PtrError p => Some p
  | Foreign _ cause => errors_As cause
  end.

(** What [fmt] prints for an operand whose [Error] method was called:
    the text it returned; when it panicked, ["<nil>"] for a nil pointer
    receiver and the panic report otherwise. *)
Definition catchPanic (arg : ptr Error) (r : go string) : string :=
  match r with
  | Ret s => s
  | Panic v =>
      match arg with
      | None => "<nil>"
      | Some _ => "%!v(PANIC=Error method: " +:+ v +:+ ")"
      end
  end.

(** The two [fmt.Sprintf] calls of [func (e *Error) Error() string], on
    the struct [e] points to, with the printing of the cause under [%v]
    left open: [%s] prints a [Code] and a [string] as they are. *)
Definition Error_Sprintf (fmt_v : error → string) (v : Error) : string :=
  if negb (is_nil (Error_Err v))
  then "[" +:+ Error_Code v +:+ "] " +:+ Error_Message v +:+ ": " +:+ fmt_v (Error_Err v)
  else "[" +:+ Error_Code v +:+ "] " +:+ Error_Message v.

(** [%v] applied to a value of type [error]: a nil interface prints as
    ["<nil>"], any other value through its [Error] method, which for a
    [*Error] reads [e.Err] first and so panics on a nil receiver. *)
Fixpoint fmt_v (arg : error) : string :=
  match arg with
  | nil_error => "<nil>"
  | PtrError p =>
      catchPanic p
        match p with
        | Some v => Ret (Error_Sprintf fmt_v v)
        | None => Panic nil_dereference
        end
  | Foreign text _ => text
  end.

(** ** Methods of [*Error] *)

Definition Error_Error (e : ptr Error) : go string :=
  v ← deref e; Ret (Error_Sprintf fmt_v v).

Definition Error_Unwrap (e : ptr Error) : go error :=
  v ← deref e; Ret (Error_Err v).

(** [e.Code] is read before [t.Code]. *)
Definition Error_Is (e : ptr Error) (target : error) : go bool :=
  match errors_As target with
  | None => Ret false
  | Some t =>
      ev ← deref e;
      tv ← deref t;
      Ret (bool_decide (Error_Code ev = Error_Code tv))
  end.

(** [err.Error()] through the interface: dynamic dispatch. *)
Definition error_Error (err : error) : go string :=
  match err with
  | nil_error => Panic nil_dereference
  | PtrError p => Error_Error p
  | Foreign text _ => Ret text
  end.

(** ** Free functions over arbitrary errors *)

Definition IsCode (err : error) (code : Code) : go bool :=
  if is_nil err then Ret false
  else
    match errors_As err with
    | Some e => v ← deref e; Ret (bool_decide (Error_Code v = code))
    | None => Ret false
    end.

Definition GetCode (err : error) : go Code :=
  if is_nil err then Ret EmptyString
  else
    match errors_As err with
    | Some e => v ← deref e; Ret (Error_Code v)
    | None => Ret Internal
    end.

Definition GetMessage (err : error) : go string :=
  if is_nil err then Ret EmptyString
  else
    match errors_As err with
    | Some e => v ← deref e; Ret (Error_Message v)
    | None => error_Error err
    end.

(** [Wrap] returns a [*Error]: the nil pointer for a nil [err]. *)
Definition Wrap (err : error) (code : Code) (message : string) : ptr Error :=
  if is_nil err then None
  else Some (mkError code message err).

(** [WrapIfErr] returns an [error]: the nil interface for a nil [err],
    and the boxed result of [Wrap] otherwise. *)
Definition WrapIfErr (err : error) (code : Code) (message : string) : error :=
  if is_nil err then nil_error
  else as_error (Wrap err code message).

(** ** The builder

    A [Builder] is mutated in place and its setters return the receiver,
    so builders live in a store and a [*Builder] is a location of it, or
    nil.  Go never yields a pointer to an unallocated builder; the model
    faults on one. *)
Record Builder : Type := mkBuilder {
  code : Code;
  message : string;
  err : error;
}.

Definition loc : Type := nat.
Abbreviation store := (gmap loc Builder).

(** A computation over the builder store that may panic. *)
Definition St (A : Type) : Type := store → go (A * store).

#[export] Instance St_ret : MRet St := fun A a h => Ret (a, h).
#[export] Instance St_bind : MBind St := fun A B k m h =>
  match m h with
  | Ret (a, h') => k a h'
  | Panic v => Panic v
  end.

(** A call that does not touch the store. *)
Definition lift {A} (m : go A) : St A := fun h =>
  match m with
  | Ret a => Ret (a, h)
  | Panic v => Panic v
  end.

Definition unallocated : string := "unallocated builder".

(** Reading [*b]. *)
Definition load (b : ptr loc) : St Builder := fun h =>
  match b with
  | None => Panic nil_dereference
  | Some l =>
      match h !! l with
      | Some v => Ret (v, h)
      | None => Panic unallocated
      end
  end.

(** Assigning one field of [*b], written as the update [f] of the struct. *)
Definition assign (b : ptr loc) (f : Builder → Builder) : St () := fun h =>
  match b with
  | None => Panic nil_dereference
  | Some l =>
      match h !! l with
      | Some v => Ret ((), <[l := f v]> h)
      | None => Panic unallocated
      end
  end.

Definition set_message (msg : string) (v : Builder) : Builder :=
  mkBuilder (code v) msg (err v).
Definition set_err (cause : error) (v : Builder) : Builder :=
  mkBuilder (code v) (message v) cause.

(** [&Builder{code: c}]: a fresh builder, message and cause at their zero
    values. *)
Definition alloc (c : Code) : St (ptr loc) := fun h =>
  let l := fresh (dom h) in
  Ret (Some l, <[l := mkBuilder c EmptyString nil_error]> h).

Definition Builder_WithMessage (b : ptr loc) (msg : string) : St (ptr loc) :=
  assign b (set_message msg);; mret b.

Definition Builder_WithCause (b : ptr loc) (cause : error) : St (ptr loc) :=
  assign b (set_err cause);; mret b.

Definition Builder_Build (b : ptr loc) : St (ptr Error) :=
  v ← load b; mret (Some (mkError (code v) (message v) (err v))).

Definition Builder_Error (b : ptr loc) : St error :=
  e ← Builder_Build b; mret (as_error e).

Definition Builder_WithDescription (b : ptr loc) (desc : string) : St (ptr Error) :=
  assign b (set_message desc);; Builder_Build b.

Definition Builder_WithDescriptionAndCause
    (b : ptr loc) (desc : string) (cause : error) : St (ptr Error) :=
  assign b (set_message desc);; assign b (set_err cause);; Builder_Build b.

Section Messagef.
(** [fmt.Sprintf] over arbitrary operands is taken as given: a total
    function, as [fmt] recovers the panics of the methods it calls. *)
Variable any : Type.
Variable Sprintf : string → list any → string.

Definition Builder_WithMessagef
    (b : ptr loc) (format : string) (args : list any) : St (ptr loc) :=
  assign b (set_message (Sprintf format args));; mret b.
End Messagef.

Definition New (c : Code) : St (ptr loc) := alloc c.
Definition NewBadRequest : St (ptr loc) := alloc BadRequest.
Definition NewNotFound : St (ptr loc) := alloc NotFound.
Definition NewConflict : St (ptr loc) := alloc Conflict.
Definition NewInternal : St (ptr loc) := alloc Internal.
Definition NewAlreadyExists : St (ptr loc) := alloc AlreadyExists.
Definition NewUnauthorized : St (ptr loc) := alloc Unauthorized.
Definition NewForbidden : St (ptr loc) := alloc Forbidden.
Definition NewTimeout : St (ptr loc) := alloc Timeout.
Definition NewValidation : St (ptr loc) := alloc Validation.

(** ** The cause chain

    The values met when an error is unwrapped again and again: the error
    itself, then what its [Unwrap] returns, up to the first nil.  A nil
    [*Error] ends the chain, as its [Unwrap] cannot be called. *)
Fixpoint chain (e : error) : list error :=
  match e with
  | nil_error => []
  | PtrError None => [PtrError None]
  | PtrError (Some v) => PtrError (Some v) :: chain (Error_Err v)
  | Foreign text cause => Foreign text cause :: chain cause
  end.

(** The pointer held by a value of dynamic type [*Error]. *)
Definition typed (e : error) : option (ptr Error) :=
  match e with
  | PtrError p => Some p
  | _ => None
  end.

(** The first value of dynamic type [*Error] on the chain. *)
Definition first_Error (e : error) : option (ptr Error) :=
  head (omap typed (chain e)).

(** ** Standard library: errors.Is against a [*Error] target

    [errors.Is(err, target)] for a [target] of dynamic type [*Error]
    holding the pointer [t].  At every link of the chain the loop first
    compares the link with [target], then calls the link's [Is] method
    if it has one, then unwraps.  A foreign link has another dynamic type
    than [target] and no [Is] method.  A non-nil [*Error] link equal to
    [target] as a pointer also matches it by code, so its identity need
    not be known; a nil [*Error] link equals a nil [target], and
    otherwise its [Is] is called and dereferences it. *)
Fixpoint errors_Is (err : error) (t : ptr Error) : go bool :=
  match err with
  | nil_error => Ret false
  | PtrError None =>
      match t with
      | None => Ret true
      | Some _ => Error_Is None (PtrError t)
      end
  | PtrError (Some v) =>
      match Error_Is (Some v) (PtrError t) with
      | Ret true => Ret true
      | Ret false => errors_Is (Error_Err v) t
      | Panic p => Panic p
      end
  | Foreign _ cause => errors_Is cause t
  end.

(** The code carried by a link of the chain, if it is an allocated
    [*Error]. *)
Definition link_Code (e : error) : option Code :=
  match e with
  | PtrError (Some v) => Some (Error_Code v)
  | _ => None
  end.

(** ** The example program

    The functions of [examples/main.go] that build and pass errors.  The
    program owns the builder store and what it has written to standard
    output, kept as the list of lines printed. *)
Record World : Type := mkWorld {
  builders : store;
  stdout : list string;
}.

Definition Prog (A : Type) : Type := World → go (A * World).

#[export] Instance Prog_ret : MRet Prog := fun A a w => Ret (a, w).
#[export] Instance Prog_bind : MBind Prog := fun A B k m w =>
  match m w with
  | Ret (a, w') => k a w'
  | Panic v => Panic v
  end.

(** A call into the library, which touches the builders only. *)
Definition call {A} (m : St A) : Prog A := fun w =>
  match m (builders w) with
  | Ret (a, h) => Ret (a, mkWorld h (stdout w))
  | Panic v => Panic v
  end.

(** [fmt.Println] of one line. *)
Definition Println (line : string) : Prog () := fun w =>
  Ret ((), mkWorld (builders w) (stdout w ++ [line])).

(** [sql.ErrNoRows] of [database/sql], made by [errors.New]. *)
Definition sql_ErrNoRows : error := Foreign "sql: no rows in result set" nil_error.

(** The initialisers of the two package variables. *)
Definition ErrUserNotFound_init : St error :=
  b ← NewNotFound; b ← Builder_WithMessage b "user not found"; Builder_Error b.
Definition ErrInvalidInput_init : St error :=
  b ← NewBadRequest; b ← Builder_WithMessage b "invalid input"; Builder_Error b.

(** The values the two package variables hold once initialised. *)
Definition ErrUserNotFound : error :=
  PtrError (Some (mkError NotFound "user not found" nil_error)).
Definition ErrInvalidInput : error :=
  PtrError (Some (mkError BadRequest "invalid input" nil_error)).

Section Example.
(** [fmt.Sprintf] and the boxing of an [int] into [interface{}] are
    taken as given. *)
Variable any : Type.
Variable Sprintf : string → list any → string.
Variable int_any : Z → any.

(** [func (r *UserRepository) GetUser(id string) (string, error)]; the
    receiver is not used. *)
Definition GetUser (id : string) : St (string * error) :=
  if String.eqb id EmptyString then
    b ← NewBadRequest;
    b ← Builder_WithMessagef any Sprintf b "user ID cannot be empty" [];
    e ← Builder_Error b;
    mret (EmptyString, e)
  else if String.eqb id "404" then
    mret (EmptyString,
          as_error (Wrap sql_ErrNoRows NotFound "user not found in database"))
  else if String.eqb id "500" then
    b ← NewInternal;
    b ← Builder_WithMessage b "database connection failed";
    b ← Builder_WithCause b (Foreign "timeout after 30s" nil_error);
    e ← Builder_Build b;
    mret (EmptyString, as_error e)
  else
    mret ("User: " +:+ id, nil_error).

(** [len(input)] counts bytes, as [String.length] does. *)
Definition ValidateUserInput (input : string) : St error :=
  if String.eqb input EmptyString then
    mret ErrInvalidInput
  else if (String.length input <? 3)%nat then
    b ← NewValidation;
    b ← Builder_WithMessagef any Sprintf b
          "input length must be at least 3 characters, got %d"
          [int_any (Z.of_nat (String.length input))];
    Builder_Error b
  else
    mret nil_error.

Definition ProcessUserRequest (userID input : string) : Prog error :=
  verr ← call (ValidateUserInput input);
  if negb (is_nil verr) then mret verr
  else
    r ← call (GetUser userID);
    if negb (is_nil r.2) then
      mret (WrapIfErr r.2 Internal "failed during user processing")
    else
      Println ("Successfully processed: " +:+ r.1);; mret nil_error.
End Example.

(** Unfolding the two monads. *)
Ltac go_simpl :=
  repeat (simpl in * || unfold mbind, mret, go_bind, go_ret, St_bind, St_ret in * ).

(** Running builder calls on a store whose last insertion is the
    builder they use. *)
Ltac run_store :=
  unfold New, NewBadRequest, NewNotFound, NewConflict, NewInternal,
    NewAlreadyExists, NewUnauthorized, NewForbidden, NewTimeout, NewValidation,
    Builder_WithMessage, Builder_WithMessagef, Builder_WithCause,
    Builder_Error, Builder_Build, alloc, assign, load,
    mbind, St_bind, mret, St_ret;
  repeat (cbv beta iota zeta; rewrite ?lookup_insert_eq).

(** * Properties *)

(** ** Two runs *)

Example chain_example :
  let inner := PtrError (Some (mkError NotFound "row" nil_error)) in
  let e := Foreign "ctx: [NOT_FOUND] row" inner in
  chain e = [e; inner] ∧ first_Error e = typed inner ∧ fmt_v inner = "[NOT_FOUND] row".
Proof. done. Qed.

Example README_quick_start :
  (b ← NewInternal;
   b ← Builder_WithMessage b "failed to fetch user";
   b ← Builder_WithCause b (Foreign "database connection timeout" nil_error);
   e ← Builder_Build b;
   lift (Error_Error e) : St string) ∅
  = Ret ("[INTERNAL] failed to fetch user: database connection timeout",
         <[ 0 := mkBuilder Internal "failed to fetch user"
                   (Foreign "database connection timeout" nil_error) ]> ∅).
Proof. vm_compute. reflexivity. Qed.

(** ** Walking the chain *)

(** [errors.As] yields the first value of dynamic type [*Error] met on
    the cause chain, and fails when the chain holds none. *)
Lemma errors_As_first_Error (e : error) : errors_As e = first_Error e.
Proof.
  induction e as [ | p | text cause IH ]; unfold first_Error in *; simpl.
  - reflexivity.
  - by destruct p.
  - exact IH.
Qed.

Lemma first_Error_nil : first_Error nil_error = None.
Proof. reflexivity. Qed.

Lemma first_Error_PtrError (p : ptr Error) : first_Error (PtrError p) = Some p.
Proof. by destruct p. Qed.

Lemma first_Error_Foreign text cause :
  first_Error (Foreign text cause) = first_Error cause.
Proof. reflexivity. Qed.

(** A nil interface, or an error with a [*Error] on its chain, is not a
    bare foreign chain. *)
Lemma first_Error_None_inv (e : error) :
  first_Error e = None → e = nil_error ∨ ∃ text cause, e = Foreign text cause.
Proof.
  destruct e as [ | p | text cause ]; intros H.
  - by left.
  - by rewrite first_Error_PtrError in H.
  - right. by exists text, cause.
Qed.

(** Under [%v] an error prints as the text its [Error] method returns,
    whenever that method returns. *)
Lemma fmt_v_error_Error (e : error) (s : string) :
  error_Error e = Ret s → fmt_v e = s.
Proof.
  destruct e as [ | [v | ] | text cause ]; simpl; intros H;
    try discriminate; by injection H.
Qed.

(** The only non-nil error of the model whose [Error] method panics is
    the nil [*Error]. *)
Lemma error_Error_returns (e : error) :
  e ≠ nil_error → e ≠ PtrError None → error_Error e = Ret (fmt_v e).
Proof.
  destruct e as [ | [v | ] | text cause ]; simpl; intros H1 H2; done.
Qed.

(** ** The string form *)

(** C1: the string form of a Typed Error is ["[<code>] <message>"] when it
    has no cause and ["[<code>] <message>: <cause-string>"] when it has
    one, where the cause string is what [%v] prints for the cause: the
    text its own [Error] method returns, and ["<nil>"] for the one cause
    whose method cannot return, the nil [*Error]. *)
Theorem Error_Error_format (c : Code) (m : string) (cause : error) :
  Error_Error (Some (mkError c m cause)) =
    Ret (match cause with
         | nil_error => "[" +:+ c +:+ "] " +:+ m
         | _ => "[" +:+ c +:+ "] " +:+ m +:+ ": " +:+ fmt_v cause
         end)
  ∧ match cause with
    | nil_error => True
    | PtrError None => fmt_v cause = "<nil>"
    | _ => error_Error cause = Ret (fmt_v cause)
    end.
Proof.
  split.
  - by destruct cause.
  - by destruct cause as [ | [v | ] | text cause ].
Qed.

Example Error_Error_nested :
  Error_Error (Wrap (as_error (Wrap (Foreign "eof" nil_error) NotFound "no row"))
                    Internal "query")
  = Ret "[INTERNAL] query: [NOT_FOUND] no row: eof".
Proof. reflexivity. Qed.

(** ** Matching by code *)

Lemma Error_Is_found (e t : Error) (target : error) :
  first_Error target = Some (Some t) →
  Error_Is (Some e) target = Ret (bool_decide (Error_Code e = Error_Code t)).
Proof.
  rewrite <- errors_As_first_Error. unfold Error_Is. by intros ->.
Qed.

Lemma Error_Is_none (e : ptr Error) (target : error) :
  first_Error target = None → Error_Is e target = Ret false.
Proof.
  rewrite <- errors_As_first_Error. unfold Error_Is. by intros ->.
Qed.

(** C2, as stated, fails: on the boxed absent result of [Wrap] as target,
    [Is] returns neither true nor false. *)
Lemma Error_Is_boxed_nil_pointer :
  ¬ ∃ b, Error_Is (Some (mkError NotFound "user" nil_error))
                  (as_error (Wrap nil_error NotFound "x")) = Ret b.
Proof. intros [b H]. discriminate. Qed.

(** C2, amended: for a Typed Error [e] and a target whose chain does not
    reach a nil [*Error] first, [e.Is(target)] returns a boolean, true
    exactly when the walk of [target]'s chain finds a Typed Error with the
    code of [e], and false when the chain holds no [*Error].  Only codes
    are compared. *)
Theorem Error_Is_spec (e : Error) (target : error)
    (H : first_Error target ≠ Some None) :
  ∃ b, Error_Is (Some e) target = Ret b
       ∧ (b = true ↔
            ∃ t, first_Error target = Some (Some t) ∧ Error_Code t = Error_Code e)
       ∧ (first_Error target = None → b = false).
Proof.
  destruct (first_Error target) as [ [ t | ] | ] eqn:Hf; [ | done | ].
  - exists (bool_decide (Error_Code e = Error_Code t)).
    split; [ by apply Error_Is_found | ]. split; [ split | discriminate ].
    + intros Hb. apply bool_decide_eq_true_1 in Hb. by exists t.
    + intros (t' & Ht' & Hc). apply bool_decide_eq_true_2. congruence.
  - exists false. split; [ by apply Error_Is_none | ].
    split; [ split | done ].
    + discriminate.
    + intros (t & Ht & _). discriminate.
Qed.

Lemma Error_Is_spec_witness :
  ∃ b, Error_Is (Some (mkError NotFound "user" nil_error))
         (Foreign "lookup" (PtrError (Some (mkError NotFound "row" (Foreign "eof" nil_error)))))
       = Ret b
       ∧ b = true.
Proof.
  destruct (Error_Is_spec (mkError NotFound "user" nil_error)
    (Foreign "lookup" (PtrError (Some (mkError NotFound "row" (Foreign "eof" nil_error))))))
    as (b & Hb & Hiff & _).
  - vm_compute. discriminate.
  - exists b. split; [ exact Hb | ].
    apply Hiff. eexists. split; reflexivity.
Defined.

(** Same code, other message and cause: a match.  Same message, other
    code: none. *)
Example Error_Is_by_code_only :
  Error_Is (Some (mkError NotFound "user" nil_error))
           (PtrError (Some (mkError NotFound "row" (Foreign "eof" nil_error)))) = Ret true
  ∧ Error_Is (Some (mkError NotFound "user" nil_error))
             (PtrError (Some (mkError Conflict "user" nil_error))) = Ret false.
Proof. done. Qed.

(** ** Reading the code and the message *)

Lemma GetCode_found (err : error) (e : Error) :
  first_Error err = Some (Some e) → GetCode err = Ret (Error_Code e).
Proof.
  rewrite <- errors_As_first_Error. unfold GetCode. intros H.
  destruct err; [ discriminate | | ]; simpl is_nil; cbv iota; by rewrite H.
Qed.

Lemma GetCode_foreign (err : error) :
  err ≠ nil_error → first_Error err = None → GetCode err = Ret Internal.
Proof.
  rewrite <- errors_As_first_Error. unfold GetCode. intros Hn ->. by destruct err.
Qed.

Lemma GetMessage_found (err : error) (e : Error) :
  first_Error err = Some (Some e) → GetMessage err = Ret (Error_Message e).
Proof.
  rewrite <- errors_As_first_Error. unfold GetMessage. intros H.
  destruct err; [ discriminate | | ]; simpl is_nil; cbv iota; by rewrite H.
Qed.

Lemma GetMessage_foreign (err : error) :
  err ≠ nil_error → first_Error err = None →
  ∃ s, error_Error err = Ret s ∧ GetMessage err = Ret s.
Proof.
  intros Hn H. destruct (first_Error_None_inv err H) as [ -> | (text & cause & ->) ].
  - done.
  - exists text. split; [ done | ].
    rewrite <- errors_As_first_Error in H. unfold GetMessage. simpl in *.
    by rewrite H.
Qed.

(** With a nil [*Error] first on the chain the three readers dereference
    it and panic. *)
Lemma readers_panic_on_nil_pointer (e : error) (c : Code) :
  first_Error e = Some None →
  IsCode e c = Panic nil_dereference
  ∧ GetCode e = Panic nil_dereference
  ∧ GetMessage e = Panic nil_dereference.
Proof.
  rewrite <- errors_As_first_Error. intros H.
  unfold IsCode, GetCode, GetMessage. rewrite H. by destruct e.
Qed.

(** C3, as stated, fails: the absent result of [Wrap], passed on as an
    [error], is a non-nil error, and [GetCode] returns no code for it,
    neither that of a Typed Error nor [Internal]. *)
Lemma GetCode_boxed_nil_pointer :
  is_nil (as_error (Wrap nil_error NotFound "x")) = false
  ∧ ¬ ∃ c, GetCode (as_error (Wrap nil_error NotFound "x")) = Ret c.
Proof. split; [ done | ]. intros [c H]. discriminate. Qed.

(** C3, amended: on every error whose chain does not reach a nil
    [*Error] first, [GetCode] returns a code: the empty code on the nil
    error, the code of the Typed Error found on the chain when there is
    one, and [Internal] on every non-nil error whose chain holds no
    [*Error]. *)
Theorem GetCode_spec (err : error) (H : first_Error err ≠ Some None) :
  ∃ c, GetCode err = Ret c
       ∧ (err = nil_error → c = EmptyString)
       ∧ (∀ e, first_Error err = Some (Some e) → c = Error_Code e)
       ∧ (err ≠ nil_error → first_Error err = None → c = Internal).
Proof.
  destruct (first_Error err) as [ [ e | ] | ] eqn:Hf; [ | done | ].
  - exists (Error_Code e). split; [ by apply GetCode_found | ].
    split; [ | split ].
    + intros ->. discriminate.
    + intros e' He'. congruence.
    + discriminate.
  - destruct (first_Error_None_inv err Hf) as [ -> | (text & cause & ->) ].
    + by exists EmptyString.
    + exists Internal. split; [ by apply GetCode_foreign | done ].
Qed.

Lemma GetCode_spec_witness :
  ∃ c, GetCode (Foreign "lookup" (PtrError (Some (mkError NotFound "row" nil_error))))
         = Ret c
       ∧ c = NotFound.
Proof.
  destruct (GetCode_spec
              (Foreign "lookup" (PtrError (Some (mkError NotFound "row" nil_error)))))
    as (c & Hc & _ & Hfound & _).
  - vm_compute. discriminate.
  - exists c. split; [ exact Hc | ].
    apply (Hfound (mkError NotFound "row" nil_error)). reflexivity.
Defined.

(** C8, as stated, fails: on the boxed absent result of [Wrap], a non-nil
    error, [GetMessage] returns no string. *)
Lemma GetMessage_boxed_nil_pointer :
  is_nil (as_error (Wrap nil_error NotFound "x")) = false
  ∧ ¬ ∃ s, GetMessage (as_error (Wrap nil_error NotFound "x")) = Ret s.
Proof. split; [ done | ]. intros [c H]. discriminate. Qed.

(** C8, amended: on every error whose chain does not reach a nil
    [*Error] first, [GetMessage] returns a string: the empty string on
    the nil error, the message of the Typed Error found on the chain when
    there is one, and otherwise what the error's own [Error] method
    returns. *)
Theorem GetMessage_spec (err : error) (H : first_Error err ≠ Some None) :
  ∃ s, GetMessage err = Ret s
       ∧ (err = nil_error → s = EmptyString)
       ∧ (∀ e, first_Error err = Some (Some e) → s = Error_Message e)
       ∧ (err ≠ nil_error → first_Error err = None → error_Error err = Ret s).
Proof.
  destruct (first_Error err) as [ [ e | ] | ] eqn:Hf; [ | done | ].
  - exists (Error_Message e). split; [ by apply GetMessage_found | ].
    split; [ | split ].
    + intros ->. discriminate.
    + intros e' He'. congruence.
    + discriminate.
  - destruct (first_Error_None_inv err Hf) as [ -> | (text & cause & ->) ].
    + by exists EmptyString.
    + destruct (GetMessage_foreign (Foreign text cause)) as (s & Hs & Hm); [ done .. | ].
      exists s. split; [ done | ]. split; [ done | ]. split; [ discriminate | done ].
Qed.

Lemma GetMessage_spec_witness :
  ∃ s, GetMessage (Foreign "lookup: eof" (Foreign "eof" nil_error)) = Ret s
       ∧ error_Error (Foreign "lookup: eof" (Foreign "eof" nil_error)) = Ret s.
Proof.
  destruct (GetMessage_spec (Foreign "lookup: eof" (Foreign "eof" nil_error)))
    as (s & Hs & _ & _ & Hforeign).
  - vm_compute. discriminate.
  - exists s. split; [ exact Hs | ].
    apply Hforeign; [ discriminate | reflexivity ].
Defined.

(** ** Wrapping *)

Lemma Wrap_non_nil (e : error) (c : Code) (m : string) :
  e ≠ nil_error → Wrap e c m = Some (mkError c m e).
Proof. unfold Wrap. by destruct e. Qed.

(** C4: [Wrap] returns the nil pointer for the nil error, and for every
    other error a new Typed Error with the given code and message whose
    cause is that error, so that unwrapping it gives the error back. *)
Theorem Wrap_spec (e : error) (c : Code) (m : string) (H : e ≠ nil_error) :
  Wrap nil_error c m = None
  ∧ Wrap e c m = Some (mkError c m e)
  ∧ Error_Unwrap (Wrap e c m) = Ret e.
Proof.
  split; [ done | ].
  by rewrite (Wrap_non_nil e c m H).
Qed.

Lemma Wrap_spec_witness :
  Wrap nil_error NotFound "no row" = None
  ∧ Wrap (Foreign "eof" nil_error) NotFound "no row"
      = Some (mkError NotFound "no row" (Foreign "eof" nil_error))
  ∧ Error_Unwrap (Wrap (Foreign "eof" nil_error) NotFound "no row")
      = Ret (Foreign "eof" nil_error).
Proof. apply (Wrap_spec (Foreign "eof" nil_error)). discriminate. Defined.

Lemma IsCode_PtrError (e : Error) (c : Code) :
  IsCode (PtrError (Some e)) c = Ret (bool_decide (Error_Code e = c)).
Proof. reflexivity. Qed.

(** C5: for a non-nil error [e] and codes [c2 ≠ c], wrapping [e] under
    [c] gives an error that [IsCode] recognises as [c] and not as [c2]:
    the walk stops at the wrapper, also when [e] is itself a Typed Error
    of code [c2]. *)
Theorem IsCode_Wrap (e : error) (c c2 : Code) (m : string)
    (He : e ≠ nil_error) (Hc : c2 ≠ c) :
  IsCode (as_error (Wrap e c m)) c = Ret true
  ∧ IsCode (as_error (Wrap e c m)) c2 = Ret false
  ∧ ∀ m2 cause,
      IsCode (as_error (Wrap (PtrError (Some (mkError c2 m2 cause))) c m)) c2 = Ret false.
Proof.
  rewrite (Wrap_non_nil e c m He).
  unfold as_error. rewrite !IsCode_PtrError. simpl.
  split; [ | split ].
  - f_equal. by apply bool_decide_eq_true_2.
  - f_equal. apply bool_decide_eq_false_2. congruence.
  - intros m2 cause. change (Wrap _ c m) with (Some (mkError c m (PtrError (Some (mkError c2 m2 cause))))).
    rewrite IsCode_PtrError. simpl.
    f_equal. apply bool_decide_eq_false_2. congruence.
Qed.

Lemma IsCode_Wrap_witness :
  IsCode (as_error (Wrap (PtrError (Some (mkError NotFound "row" nil_error)))
                         Internal "query")) Internal = Ret true
  ∧ IsCode (as_error (Wrap (PtrError (Some (mkError NotFound "row" nil_error)))
                           Internal "query")) NotFound = Ret false
  ∧ ∀ m2 cause,
      IsCode (as_error (Wrap (PtrError (Some (mkError NotFound m2 cause)))
                             Internal "query")) NotFound = Ret false.
Proof.
  apply (IsCode_Wrap (PtrError (Some (mkError NotFound "row" nil_error)))
                     Internal NotFound "query"); discriminate.
Defined.

(** C6: [WrapIfErr] returns the nil error for the nil error, and for
    every other error the result of [Wrap] boxed as an [error]. *)
Theorem WrapIfErr_spec (e : error) (c : Code) (m : string) (H : e ≠ nil_error) :
  WrapIfErr nil_error c m = nil_error
  ∧ WrapIfErr e c m = as_error (Wrap e c m)
  ∧ WrapIfErr e c m = PtrError (Some (mkError c m e)).
Proof.
  split; [ done | ].
  unfold WrapIfErr, Wrap, as_error. by destruct e.
Qed.

Lemma WrapIfErr_spec_witness :
  WrapIfErr nil_error Internal "x" = nil_error
  ∧ WrapIfErr (Foreign "eof" nil_error) Internal "x"
      = as_error (Wrap (Foreign "eof" nil_error) Internal "x")
  ∧ WrapIfErr (Foreign "eof" nil_error) Internal "x"
      = PtrError (Some (mkError Internal "x" (Foreign "eof" nil_error))).
Proof. apply (WrapIfErr_spec (Foreign "eof" nil_error)). discriminate. Defined.

(** The guard of [WrapIfErr] is what tells it from [Wrap] on the nil
    error: boxing the nil pointer of [Wrap] gives a non-nil interface. *)
Remark WrapIfErr_nil_not_boxed (c : Code) (m : string) :
  is_nil (WrapIfErr nil_error c m) = true
  ∧ is_nil (as_error (Wrap nil_error c m)) = false.
Proof. done. Qed.

(** ** The fallback code *)

(** C10: on a non-nil error whose chain holds no [*Error], [GetCode]
    returns [Internal] and [IsCode] with [Internal] returns false; so
    [GetCode err = c] does not make [IsCode err c] true. *)
Theorem GetCode_Internal_not_IsCode (e : error)
    (Hn : e ≠ nil_error) (Hf : first_Error e = None) :
  GetCode e = Ret Internal
  ∧ IsCode e Internal = Ret false
  ∧ ¬ (∀ c, GetCode e = Ret c → IsCode e c = Ret true).
Proof.
  assert (HI : IsCode e Internal = Ret false).
  { rewrite <- errors_As_first_Error in Hf. unfold IsCode. rewrite Hf.
    by destruct e. }
  assert (HG : GetCode e = Ret Internal).
  { rewrite <- errors_As_first_Error in Hf. unfold GetCode. rewrite Hf.
    by destruct e. }
  split; [ done | split; [ done | ] ].
  intros H. specialize (H Internal HG). congruence.
Qed.

Lemma GetCode_Internal_not_IsCode_witness :
  GetCode (Foreign "lookup: eof" (Foreign "eof" nil_error)) = Ret Internal
  ∧ IsCode (Foreign "lookup: eof" (Foreign "eof" nil_error)) Internal = Ret false
  ∧ ¬ (∀ c, GetCode (Foreign "lookup: eof" (Foreign "eof" nil_error)) = Ret c →
            IsCode (Foreign "lookup: eof" (Foreign "eof" nil_error)) c = Ret true).
Proof.
  apply (GetCode_Internal_not_IsCode (Foreign "lookup: eof" (Foreign "eof" nil_error))).
  - discriminate.
  - reflexivity.
Defined.

(** ** The builder *)

Lemma load_allocated (h : store) (l : loc) (v : Builder) :
  h !! l = Some v → load (Some l) h = Ret (v, h).
Proof. unfold load. by intros ->. Qed.

Lemma assign_allocated (h : store) (l : loc) (v : Builder) (f : Builder → Builder) :
  h !! l = Some v → assign (Some l) f h = Ret ((), <[l := f v]> h).
Proof. unfold assign. by intros ->. Qed.

Lemma Builder_Build_allocated (h : store) (l : loc) (v : Builder) :
  h !! l = Some v →
  Builder_Build (Some l) h = Ret (Some (mkError (code v) (message v) (err v)), h).
Proof.
  intros H. unfold Builder_Build, mbind, St_bind.
  by rewrite (load_allocated h l v H).
Qed.

(** C7: the legacy shortcuts do what the fluent path does, on every
    builder pointer and in every store: [b.WithDescription(d)] is
    [b.WithMessage(d).Build()] and [b.WithDescriptionAndCause(d, c)] is
    [b.WithMessage(d).WithCause(c).Build()], with the same Typed Error
    returned and the same builder left behind; on an allocated builder
    that Typed Error has the builder's code, [d] as message and the
    builder's cause, respectively [c]. *)
Theorem legacy_shortcuts (b : ptr loc) (d : string) (c : error) (h : store) :
  Builder_WithDescription b d h
    = (Builder_WithMessage b d ≫= Builder_Build) h
  ∧ Builder_WithDescriptionAndCause b d c h
    = (Builder_WithMessage b d ≫= (λ b1, Builder_WithCause b1 c ≫= Builder_Build)) h
  ∧ (∀ l v, Builder_WithDescription (Some l) d (<[l := v]> h)
            = Ret (Some (mkError (code v) d (err v)),
                   <[l := mkBuilder (code v) d (err v)]> h))
  ∧ (∀ l v, Builder_WithDescriptionAndCause (Some l) d c (<[l := v]> h)
            = Ret (Some (mkError (code v) d c),
                   <[l := mkBuilder (code v) d c]> h)).
Proof.
  split; [ | split; [ | split ] ].
  - unfold Builder_WithDescription, Builder_WithMessage. go_simpl.
    by destruct (assign b (set_message d) h) as [ [ [] h1 ] | ].
  - unfold Builder_WithDescriptionAndCause, Builder_WithMessage, Builder_WithCause.
    go_simpl.
    destruct (assign b (set_message d) h) as [ [ [] h1 ] | ]; [ | done ].
    by destruct (assign b (set_err c) h1) as [ [ [] h2 ] | ].
  - intros l v. unfold Builder_WithDescription, mbind, St_bind.
    rewrite (assign_allocated _ l v) by apply lookup_insert_eq.
    rewrite insert_insert_eq.
    by rewrite (Builder_Build_allocated _ l (set_message d v)) by apply lookup_insert_eq.
  - intros l v. unfold Builder_WithDescriptionAndCause, mbind, St_bind.
    rewrite (assign_allocated _ l v) by apply lookup_insert_eq.
    rewrite insert_insert_eq.
    rewrite (assign_allocated _ l (set_message d v)) by apply lookup_insert_eq.
    rewrite insert_insert_eq.
    by rewrite (Builder_Build_allocated _ l (set_err c (set_message d v)))
      by apply lookup_insert_eq.
Qed.

Example legacy_shortcut_run :
  (b ← NewConflict; Builder_WithDescriptionAndCause b "taken" (Foreign "dup key" nil_error)) ∅
  = (b ← NewConflict;
     b ← Builder_WithMessage b "taken";
     b ← Builder_WithCause b (Foreign "dup key" nil_error);
     Builder_Build b) ∅
  ∧ (b ← NewConflict; Builder_WithDescriptionAndCause b "taken" (Foreign "dup key" nil_error)) ∅
  = Ret (Some (mkError Conflict "taken" (Foreign "dup key" nil_error)),
         <[ 0 := mkBuilder Conflict "taken" (Foreign "dup key" nil_error) ]> ∅).
Proof. split; vm_compute; reflexivity. Qed.

(** ** Totality *)

Lemma returns_Ret {A} (a : A) : returns (Ret a).
Proof. by exists a. Qed.

Lemma not_returns_Panic {A} (v : string) : ¬ returns (@Panic A v).
Proof. intros [a H]. discriminate. Qed.

#[local] Hint Resolve returns_Ret : core.

(** The methods of [*Error] read a field of the receiver. *)
Lemma nil_receiver_panics :
  Error_Error None = Panic nil_dereference
  ∧ Error_Unwrap None = Panic nil_dereference
  ∧ ∀ t, Error_Is None (PtrError t) = Panic nil_dereference.
Proof. done. Qed.

Lemma nil_builder_panics (h : store) (m : string) :
  Builder_WithMessage None m h = Panic nil_dereference
  ∧ Builder_Build None h = Panic nil_dereference
  ∧ Builder_WithDescription None m h = Panic nil_dereference.
Proof. done. Qed.

(** C9, as stated, fails: the absent result of [Wrap], passed on as an
    [error], is a non-nil interface holding a nil [*Error], and none of
    [IsCode], [GetCode], [GetMessage] returns on it. *)
Lemma readers_not_total :
  ¬ returns (IsCode (as_error (Wrap nil_error Internal "x")) Internal)
  ∧ ¬ returns (GetCode (as_error (Wrap nil_error Internal "x")))
  ∧ ¬ returns (GetMessage (as_error (Wrap nil_error Internal "x"))).
Proof. repeat split; apply not_returns_Panic. Qed.

(** C9, amended: where no nil pointer is dereferenced every function
    returns.  [IsCode], [GetCode] and [GetMessage] return on every
    error, the nil interface included, whose chain does not reach a nil
    [*Error] first, with false, the empty code and the empty string on
    the nil interface; [Wrap] and [WrapIfErr] give the nil pointer and
    the nil interface on it; [Error], [Unwrap] and [Is] return on a
    receiver that is not nil ([Is] for a target as above); the builder
    methods return on an allocated builder; [Wrap] and [WrapIfErr] give
    a result on every error; and every constructor, [New] and the nine
    per-code ones, returns a non-nil builder pointer in every store, the
    empty one included. *)
Theorem total_without_nil_pointers
    (any : Type) (Sprintf : string → list any → string)
    (e target cause : error) (c : Code) (m format : string) (args : list any)
    (r : Error) (h : store) (l : loc) (v : Builder)
    (He : first_Error e ≠ Some None)
    (Ht : first_Error target ≠ Some None)
    (Hl : h !! l = Some v) :
  (returns (IsCode e c) ∧ returns (GetCode e) ∧ returns (GetMessage e))
  ∧ (IsCode nil_error c = Ret false ∧ GetCode nil_error = Ret EmptyString
     ∧ GetMessage nil_error = Ret EmptyString
     ∧ Wrap nil_error c m = None ∧ WrapIfErr nil_error c m = nil_error)
  ∧ (returns (Error_Error (Some r)) ∧ returns (Error_Unwrap (Some r))
     ∧ returns (Error_Is (Some r) target))
  ∧ (returns (Builder_WithMessage (Some l) m h)
     ∧ returns (Builder_WithMessagef any Sprintf (Some l) format args h)
     ∧ returns (Builder_WithCause (Some l) cause h)
     ∧ returns (Builder_Build (Some l) h)
     ∧ returns (Builder_Error (Some l) h)
     ∧ returns (Builder_WithDescription (Some l) m h)
     ∧ returns (Builder_WithDescriptionAndCause (Some l) m cause h))
  ∧ (∀ x : error,
       ∃ p, Wrap x c m = p
            ∧ WrapIfErr x c m = (if is_nil x then nil_error else as_error p)
            ∧ (is_nil x = false → p = Some (mkError c m x)))
  ∧ (∀ (c0 : Code) (h0 : store),
       Forall (λ mk : St (ptr loc), ∃ l0 h1, mk h0 = Ret (Some l0, h1))
         [ New c0; NewBadRequest; NewNotFound; NewConflict; NewInternal;
           NewAlreadyExists; NewUnauthorized; NewForbidden; NewTimeout;
           NewValidation ]).
Proof.
  split; [ | split; [ done | split; [ | split; [ | split ] ] ] ].
  - rewrite <- errors_As_first_Error in He.
    unfold IsCode, GetCode, GetMessage.
    destruct e as [ | [ x | ] | text inner ]; simpl in *; try done; auto.
    destruct (errors_As inner) as [ [ x | ] | ]; simpl; try done; auto.
  - split; [ apply returns_Ret | split; [ apply returns_Ret | ] ].
    rewrite <- errors_As_first_Error in Ht. unfold Error_Is.
    destruct (errors_As target) as [ [ x | ] | ]; simpl; try done; auto.
  - unfold Builder_WithMessage, Builder_WithMessagef, Builder_WithCause,
      Builder_Error, Builder_WithDescription, Builder_WithDescriptionAndCause,
      mbind, St_bind, mret, St_ret.
    rewrite (Builder_Build_allocated h l v Hl).
    rewrite !(assign_allocated h l v _ Hl).
    rewrite (assign_allocated _ l (set_message m v)) by apply lookup_insert_eq.
    rewrite !(Builder_Build_allocated _ l _ (lookup_insert_eq _ _ _)).
    repeat split; auto.
  - intros x. exists (Wrap x c m). split; [ done | ].
    unfold WrapIfErr, Wrap. by destruct x.
  - intros c0 h0.
    repeat apply Forall_cons_2; [ .. | apply Forall_nil_2 ];
      by eexists _, _.
Qed.

Lemma total_without_nil_pointers_witness :
  (returns (IsCode (Foreign "eof" nil_error) NotFound)
   ∧ returns (GetCode (Foreign "eof" nil_error))
   ∧ returns (GetMessage (Foreign "eof" nil_error)))
  ∧ returns (Error_Is (Some (mkError NotFound "row" nil_error))
                      (PtrError (Some (mkError NotFound "user" nil_error))))
  ∧ returns (Builder_Build (Some 0) (<[ 0 := mkBuilder NotFound "row" nil_error ]> ∅))
  ∧ (∃ l0 h1, New Conflict ∅ = Ret (Some l0, h1))
  ∧ (∃ l0 h1, NewValidation ∅ = Ret (Some l0, h1)).
Proof.
  assert (He : first_Error (Foreign "eof" nil_error) ≠ Some None)
    by (vm_compute; discriminate).
  assert (Ht : first_Error (PtrError (Some (mkError NotFound "user" nil_error)))
               ≠ Some None)
    by (vm_compute; discriminate).
  assert (Hl : (<[ 0 := mkBuilder NotFound "row" nil_error ]> ∅ : store) !! 0
               = Some (mkBuilder NotFound "row" nil_error))
    by reflexivity.
  destruct (total_without_nil_pointers string (λ f _, f)
    (Foreign "eof" nil_error)
    (PtrError (Some (mkError NotFound "user" nil_error)))
    nil_error NotFound "row" "%s" [] (mkError NotFound "row" nil_error)
    (<[ 0 := mkBuilder NotFound "row" nil_error ]> ∅) 0
    (mkBuilder NotFound "row" nil_error) He Ht Hl)
    as (H1 & _ & (_ & _ & H3) & (_ & _ & _ & H4 & _) & _ & H5).
  split; [ exact H1 | split; [ exact H3 | split; [ exact H4 | ] ] ].
  split.
  - exact (Forall_inv (H5 Conflict ∅)).
  - apply (proj1 (Forall_forall _ _) (H5 Conflict ∅)).
    do 9 apply list_elem_of_further. apply list_elem_of_here.
Defined.

(** * Further properties of the package *)

(** ** How the readers relate *)

Lemma IsCode_found (err : error) (e : Error) (c : Code) :
  first_Error err = Some (Some e) →
  IsCode err c = Ret (bool_decide (Error_Code e = c)).
Proof.
  rewrite <- errors_As_first_Error. unfold IsCode. intros H.
  destruct err; [ discriminate | | ]; simpl is_nil; cbv iota; by rewrite H.
Qed.

Lemma IsCode_none (err : error) (c : Code) :
  first_Error err = None → IsCode err c = Ret false.
Proof.
  rewrite <- errors_As_first_Error. unfold IsCode. intros ->. by destruct err.
Qed.

(** X1: the [Is] method of a Typed Error [e] and [IsCode] with the code
    of [e] are the same function of the target: same boolean, and a panic
    on the same targets. *)
Theorem Error_Is_agrees_IsCode (e : Error) (target : error) :
  Error_Is (Some e) target = IsCode target (Error_Code e).
Proof.
  destruct (first_Error target) as [ [ t | ] | ] eqn:Hf.
  - rewrite (Error_Is_found e t target Hf), (IsCode_found target t _ Hf).
    f_equal. apply bool_decide_ext. split; congruence.
  - destruct (readers_panic_on_nil_pointer target (Error_Code e) Hf) as (-> & _).
    rewrite <- errors_As_first_Error in Hf. unfold Error_Is. by rewrite Hf.
  - by rewrite (Error_Is_none _ target Hf), (IsCode_none target _ Hf).
Qed.

(** X2: [IsCode(err, c)] is true exactly when [GetCode(err)] is [c] and
    that code was read from a [*Error] on the chain, not supplied as the
    default of a nil or foreign error. *)
Theorem IsCode_true_iff_GetCode (err : error) (c : Code) :
  IsCode err c = Ret true ↔ GetCode err = Ret c ∧ is_Some (first_Error err).
Proof.
  destruct (first_Error err) as [ [ e | ] | ] eqn:Hf.
  - rewrite (IsCode_found err e c Hf), (GetCode_found err e Hf). split.
    + intros H. injection H as H. apply bool_decide_eq_true_1 in H.
      split; [ by rewrite H | by eexists ].
    + intros [H _]. injection H as H. f_equal. by apply bool_decide_eq_true_2.
  - destruct (readers_panic_on_nil_pointer err c Hf) as (-> & -> & _).
    split; [ discriminate | intros [H _]; discriminate ].
  - rewrite (IsCode_none err c Hf). split; [ discriminate | ].
    intros [_ [x Hx]]. discriminate.
Qed.

(** X3: the three readers return on exactly the same errors: all of
    them, except those whose chain reaches a nil [*Error] before any other
    [*Error]. *)
Theorem readers_return_iff (err : error) (c : Code) :
  (returns (IsCode err c) ↔ first_Error err ≠ Some None)
  ∧ (returns (GetCode err) ↔ first_Error err ≠ Some None)
  ∧ (returns (GetMessage err) ↔ first_Error err ≠ Some None).
Proof.
  destruct (first_Error err) as [ [ e | ] | ] eqn:Hf.
  - rewrite (IsCode_found err e c Hf), (GetCode_found err e Hf),
      (GetMessage_found err e Hf).
    repeat split; try done; intros _; apply returns_Ret.
  - destruct (readers_panic_on_nil_pointer err c Hf) as (-> & -> & ->).
    repeat split; try done; intros H; by apply not_returns_Panic in H.
  - rewrite (IsCode_none err c Hf).
    repeat split; try done; intros _; try apply returns_Ret.
    + destruct (first_Error_None_inv err Hf) as [ -> | (text & cause & ->) ];
        [ apply returns_Ret | ].
      rewrite GetCode_foreign; [ apply returns_Ret | done .. ].
    + destruct (first_Error_None_inv err Hf) as [ -> | (text & cause & ->) ];
        [ apply returns_Ret | ].
      destruct (GetMessage_foreign (Foreign text cause)) as (s & _ & ->);
        [ done .. | apply returns_Ret ].
Qed.

(** X4: the readers never panic on what [WrapIfErr] returns, whatever it
    was given: they see nothing for a nil error and the wrapper's own
    code and message otherwise, also when the wrapped error is a boxed
    nil [*Error]. *)
Theorem readers_after_WrapIfErr (e : error) (c : Code) (m : string) :
  GetCode (WrapIfErr e c m) = Ret (if is_nil e then EmptyString else c)
  ∧ GetMessage (WrapIfErr e c m) = Ret (if is_nil e then EmptyString else m)
  ∧ IsCode (WrapIfErr e c m) c = Ret (negb (is_nil e)).
Proof.
  destruct e as [ | p | text cause ]; unfold WrapIfErr, Wrap, as_error;
    simpl is_nil; cbv iota; rewrite ?IsCode_PtrError; repeat split; try done;
    simpl; f_equal; by apply bool_decide_eq_true_2.
Qed.

(** ** errors.Is through the chain *)

(** Induction along the cause chain. *)
Lemma error_chain_ind (P : error → Prop) :
  P nil_error →
  P (PtrError None) →
  (∀ v, P (Error_Err v) → P (PtrError (Some v))) →
  (∀ text cause, P cause → P (Foreign text cause)) →
  ∀ e, P e.
Proof.
  intros Hnil Hnp Hp Hf. fix IH 1.
  intros [ | [ [ c m cause ] | ] | text cause ].
  - exact Hnil.
  - apply Hp. simpl. apply IH.
  - exact Hnp.
  - apply Hf, IH.
Qed.

Lemma Error_Is_PtrError (v t : Error) :
  Error_Is (Some v) (PtrError (Some t))
  = Ret (bool_decide (Error_Code v = Error_Code t)).
Proof. reflexivity. Qed.

(** X5: against a Typed Error target, [errors.Is] looks at every link of
    the chain, not only at the first [*Error]: on a chain without nil
    [*Error] it returns, and it returns true exactly when some [*Error]
    of the chain carries the target's code. *)
Theorem errors_Is_any_link (e : error) (t : Error)
    (H : PtrError None ∉ chain e) :
  errors_Is e (Some t)
  = Ret (bool_decide (Some (Error_Code t) ∈ link_Code <$> chain e)).
Proof.
  revert H. induction e as [ | | v IH | text cause IH ] using error_chain_ind;
    intros H.
  - reflexivity.
  - exfalso. apply H. simpl. set_solver.
  - cbn [chain errors_Is] in *. rewrite Error_Is_PtrError.
    destruct (decide (Error_Code v = Error_Code t)) as [ Heq | Hne ].
    + rewrite (bool_decide_eq_true_2 _ Heq). f_equal. symmetry.
      apply bool_decide_eq_true_2. rewrite fmap_cons. simpl. rewrite Heq.
      set_solver.
    + rewrite (bool_decide_eq_false_2 _ Hne). rewrite IH by set_solver.
      f_equal. apply bool_decide_ext. rewrite fmap_cons. simpl.
      rewrite elem_of_cons. split; [ by right | ].
      intros [ Hhd | Htl ]; [ congruence | done ].
  - cbn [chain errors_Is] in *. rewrite IH by set_solver.
    f_equal. apply bool_decide_ext. rewrite fmap_cons. simpl.
    rewrite elem_of_cons. split; [ by right | ].
    intros [ Hhd | Htl ]; [ discriminate | done ].
Qed.

Lemma errors_Is_any_link_witness :
  errors_Is (Foreign "lookup" (PtrError (Some (mkError Internal "query"
               (PtrError (Some (mkError NotFound "row" nil_error)))))))
            (Some (mkError NotFound "user not found" nil_error))
  = Ret true.
Proof.
  rewrite errors_Is_any_link.
  - reflexivity.
  - vm_compute. intros H. repeat (inversion H as [ | ? ? ? H' ]; clear H; rename H' into H).
Defined.

(** X6: a Typed Error wrapped under another code is hidden from [IsCode],
    which stops at the wrapper, but not from [errors.Is], which goes on
    to the wrapped error: with a target of the inner code the first says
    no and the second yes. *)
Theorem Wrap_hides_code_from_IsCode_only (i t : Error) (c : Code) (m : string)
    (Hc : c ≠ Error_Code i) (Ht : Error_Code t = Error_Code i) :
  IsCode (as_error (Wrap (PtrError (Some i)) c m)) (Error_Code i) = Ret false
  ∧ errors_Is (as_error (Wrap (PtrError (Some i)) c m)) (Some t) = Ret true.
Proof.
  change (Wrap _ c m) with (Some (mkError c m (PtrError (Some i)))).
  unfold as_error. split.
  - rewrite IsCode_PtrError. simpl. f_equal. by apply bool_decide_eq_false_2.
  - cbn [errors_Is Error_Err]. rewrite !Error_Is_PtrError. simpl Error_Code.
    rewrite bool_decide_eq_false_2 by congruence.
    by rewrite bool_decide_eq_true_2.
Qed.

Lemma Wrap_hides_code_from_IsCode_only_witness :
  IsCode (as_error (Wrap (PtrError (Some (mkError NotFound "row" nil_error)))
                         Internal "query")) NotFound = Ret false
  ∧ errors_Is (as_error (Wrap (PtrError (Some (mkError NotFound "row" nil_error)))
                              Internal "query"))
              (Some (mkError NotFound "user not found" nil_error)) = Ret true.
Proof.
  apply (Wrap_hides_code_from_IsCode_only (mkError NotFound "row" nil_error)
           (mkError NotFound "user not found" nil_error) Internal "query").
  - discriminate.
  - reflexivity.
Defined.

(** ** The builder, continued *)

Lemma assign_assign (b : ptr loc) (f g : Builder → Builder) (h : store) :
  (assign b f ≫= λ _, assign b g) h = assign b (g ∘ f) h.
Proof.
  unfold mbind, St_bind, assign. destruct b as [ l | ]; [ | done ].
  destruct (h !! l) as [ v | ] eqn:Hl; [ | done ].
  by rewrite lookup_insert_eq, insert_insert_eq.
Qed.

Lemma assign_ext (b : ptr loc) (f g : Builder → Builder) (h : store) :
  (∀ v, f v = g v) → assign b f h = assign b g h.
Proof.
  intros Hfg. unfold assign. destruct b as [ l | ]; [ | done ].
  destruct (h !! l) as [ v | ]; [ | done ]. by rewrite Hfg.
Qed.

Lemma setter_then_setter (b : ptr loc) (f g : Builder → Builder) (h : store) :
  ((assign b f;; mret b) ≫= λ b', assign b' g;; mret b') h
  = (assign b (g ∘ f);; mret b) h.
Proof.
  pose proof (assign_assign b f g h) as H.
  unfold mbind, St_bind, mret, St_ret in *.
  destruct (assign b f h) as [ [ [] h1 ] | ]; [ | by rewrite <- H ].
  rewrite <- H. by destruct (assign b g h1) as [ [ [] h2 ] | ].
Qed.

(** X7: the setters overwrite and do not interfere: of two
    [WithMessage] (or two [WithCause]) calls the later one wins, and
    [WithMessage] and [WithCause] can be called in either order; each pair
    leaves the same builder behind, on every pointer and in every store. *)
Theorem setters_overwrite_and_commute
    (b : ptr loc) (m1 m2 : string) (c1 c2 : error) (h : store) :
  (Builder_WithMessage b m1 ≫= λ b', Builder_WithMessage b' m2) h
    = Builder_WithMessage b m2 h
  ∧ (Builder_WithCause b c1 ≫= λ b', Builder_WithCause b' c2) h
    = Builder_WithCause b c2 h
  ∧ (Builder_WithMessage b m1 ≫= λ b', Builder_WithCause b' c1) h
    = (Builder_WithCause b c1 ≫= λ b', Builder_WithMessage b' m1) h.
Proof.
  unfold Builder_WithMessage, Builder_WithCause.
  rewrite !setter_then_setter.
  unfold mbind, St_bind.
  split; [ | split ].
  - by rewrite (assign_ext b (set_message m2 ∘ set_message m1) (set_message m2)).
  - by rewrite (assign_ext b (set_err c2 ∘ set_err c1) (set_err c2)).
  - by rewrite (assign_ext b (set_err c1 ∘ set_message m1)
                              (set_message m1 ∘ set_err c1)).
Qed.

Lemma assign_frame (l : loc) (v : Builder) (f : Builder → Builder) (h : store) :
  h !! l = Some v → code (f v) = code v →
  ∃ h', assign (Some l) f h = Ret ((), h')
        ∧ h' !! l = Some (f v)
        ∧ ∀ l', l' ≠ l → h' !! l' = h !! l'.
Proof.
  intros Hl Hc. exists (<[l := f v]> h).
  rewrite (assign_allocated h l v f Hl). split; [ done | ].
  split; [ apply lookup_insert_eq | ].
  intros l' Hne. by apply lookup_insert_ne.
Qed.

(** X8: the code of a builder is fixed when it is made.  On an allocated
    builder each fluent setter returns the receiver itself, leaves its
    code as it was and touches no other builder of the store. *)
Theorem setters_keep_code_and_others
    (any : Type) (Sprintf : string → list any → string)
    (l : loc) (v : Builder) (h : store)
    (m format : string) (args : list any) (c : error)
    (Hl : h !! l = Some v) :
  Forall (λ op : St (ptr loc),
            ∃ h', op h = Ret (Some l, h')
                  ∧ code <$> h' !! l = Some (code v)
                  ∧ ∀ l', l' ≠ l → h' !! l' = h !! l')
    [ Builder_WithMessage (Some l) m;
      Builder_WithCause (Some l) c;
      Builder_WithMessagef any Sprintf (Some l) format args ].
Proof.
  repeat apply Forall_cons_2; [ .. | apply Forall_nil_2 ];
    unfold Builder_WithMessage, Builder_WithCause, Builder_WithMessagef,
      mbind, St_bind, mret, St_ret.
  - destruct (assign_frame l v (set_message m) h Hl eq_refl) as (h' & -> & H1 & H2).
    exists h'. by rewrite H1.
  - destruct (assign_frame l v (set_err c) h Hl eq_refl) as (h' & -> & H1 & H2).
    exists h'. by rewrite H1.
  - destruct (assign_frame l v (set_message (Sprintf format args)) h Hl eq_refl)
      as (h' & -> & H1 & H2).
    exists h'. by rewrite H1.
Qed.

Lemma setters_keep_code_and_others_witness :
  Forall (λ op : St (ptr loc),
            ∃ h', op (<[ 3 := mkBuilder NotFound "row" nil_error ]> ∅)
                    = Ret (Some 3, h')
                  ∧ code <$> h' !! 3 = Some NotFound
                  ∧ ∀ l', l' ≠ 3 →
                      h' !! l' = (<[ 3 := mkBuilder NotFound "row" nil_error ]> ∅ : store) !! l')
    [ Builder_WithMessage (Some 3) "user";
      Builder_WithCause (Some 3) (Foreign "eof" nil_error);
      Builder_WithMessagef string (λ f _, f) (Some 3) "user %s" [ "x" ] ].
Proof.
  apply (setters_keep_code_and_others string (λ f _, f) 3
           (mkBuilder NotFound "row" nil_error)).
  reflexivity.
Defined.

(** X9: [Build] reads the builder and writes nothing, and what it returns
    is a snapshot: two builds in a row return the same Typed Error and
    leave the store as it was, and a Typed Error built before a later
    [WithMessage] keeps the message it was built with. *)
Theorem Build_snapshot (l : loc) (v : Builder) (h : store) (m : string)
    (Hl : h !! l = Some v) :
  (Builder_Build (Some l) ≫= λ e1,
     Builder_Build (Some l) ≫= λ e2, mret (e1, e2)) h
  = Ret ((Some (mkError (code v) (message v) (err v)),
          Some (mkError (code v) (message v) (err v))), h)
  ∧ (Builder_Build (Some l) ≫= λ e1,
       Builder_WithMessage (Some l) m ≫= λ b,
         Builder_Build b ≫= λ e2, mret (e1, e2)) h
  = Ret ((Some (mkError (code v) (message v) (err v)),
          Some (mkError (code v) m (err v))),
         <[l := mkBuilder (code v) m (err v)]> h).
Proof.
  unfold Builder_WithMessage, mbind, St_bind, mret, St_ret.
  rewrite !(Builder_Build_allocated h l v Hl).
  split; [ done | ].
  rewrite (assign_allocated h l v _ Hl).
  by rewrite (Builder_Build_allocated _ l (set_message m v))
    by apply lookup_insert_eq.
Qed.

Lemma Build_snapshot_witness :
  (Builder_Build (Some 0) ≫= λ e1,
     Builder_WithMessage (Some 0) "user" ≫= λ b,
       Builder_Build b ≫= λ e2, mret (e1, e2))
    (<[ 0 := mkBuilder NotFound "row" nil_error ]> ∅)
  = Ret ((Some (mkError NotFound "row" nil_error),
          Some (mkError NotFound "user" nil_error)),
         <[ 0 := mkBuilder NotFound "user" nil_error ]>
           (<[ 0 := mkBuilder NotFound "row" nil_error ]> ∅)).
Proof.
  refine (proj2 (Build_snapshot 0 (mkBuilder NotFound "row" nil_error)
                   (<[ 0 := mkBuilder NotFound "row" nil_error ]> ∅) "user" _)).
  vm_compute. reflexivity.
Defined.

Lemma alloc_fresh (c : Code) (h : store) :
  ∃ l, alloc c h = Ret (Some l, <[l := mkBuilder c EmptyString nil_error]> h)
       ∧ h !! l = None.
Proof.
  exists (fresh (dom h)). split; [ done | ].
  apply not_elem_of_dom. apply is_fresh.
Qed.

(** X10: a constructor never reuses a builder: in every store [New]
    returns a non-nil pointer to a builder that did not exist before, with
    the given code, an empty message and no cause, and every builder that
    did exist is left as it was. *)
Theorem New_fresh (c : Code) (h : store) :
  ∃ l h', New c h = Ret (Some l, h')
          ∧ h !! l = None
          ∧ h' !! l = Some (mkBuilder c EmptyString nil_error)
          ∧ ∀ l', is_Some (h !! l') → h' !! l' = h !! l'.
Proof.
  destruct (alloc_fresh c h) as (l & Ha & Hl).
  exists l, (<[l := mkBuilder c EmptyString nil_error]> h).
  split; [ exact Ha | ]. split; [ exact Hl | ].
  split; [ apply lookup_insert_eq | ].
  intros l' [ x Hx ]. apply lookup_insert_ne. congruence.
Qed.

(** X11: the fluent chain from a constructor never panics: in every
    store, [New(c).WithMessage(m).WithCause(cause).Error()] returns the
    Typed Error of code [c], message [m] and cause [cause], which [IsCode]
    recognises as [c]; built right after [New], the Typed Error has the
    empty message and prints as ["[<code>] "]. *)
Theorem fluent_chain_from_New (c : Code) (m : string) (cause : error) (h : store) :
  (∃ h', (New c ≫= λ b, Builder_WithMessage b m ≫= λ b,
            Builder_WithCause b cause ≫= Builder_Error) h
         = Ret (PtrError (Some (mkError c m cause)), h'))
  ∧ IsCode (PtrError (Some (mkError c m cause))) c = Ret true
  ∧ (∃ h', (New c ≫= Builder_Build) h
           = Ret (Some (mkError c EmptyString nil_error), h'))
  ∧ Error_Error (Some (mkError c EmptyString nil_error)) = Ret ("[" +:+ c +:+ "] ").
Proof.
  destruct (alloc_fresh c h) as (l & Ha & Hl).
  unfold New, Builder_WithMessage, Builder_WithCause, Builder_Error,
    mbind, St_bind, mret, St_ret.
  rewrite Ha.
  split; [ | split; [ | split ] ].
  - rewrite (assign_allocated _ l _ _ (lookup_insert_eq _ _ _)).
    rewrite (assign_allocated _ l _ _ (lookup_insert_eq _ _ _)).
    rewrite (Builder_Build_allocated _ l _ (lookup_insert_eq _ _ _)).
    by eexists.
  - rewrite IsCode_PtrError. f_equal. by apply bool_decide_eq_true_2.
  - rewrite (Builder_Build_allocated _ l _ (lookup_insert_eq _ _ _)).
    by eexists.
  - reflexivity.
Qed.

(** * The example program *)

(** The two package variables hold, once initialised in whatever store,
    the values they are modelled by. *)
Lemma package_variables_init (h : store) :
  (∃ h', ErrUserNotFound_init h = Ret (ErrUserNotFound, h'))
  ∧ (∃ h', ErrInvalidInput_init h = Ret (ErrInvalidInput, h')).
Proof.
  unfold ErrUserNotFound_init, ErrInvalidInput_init. run_store.
  split; by eexists.
Qed.

Lemma GetUser_empty any Sprintf (h : store) :
  ∃ h', GetUser any Sprintf EmptyString h
        = Ret ((EmptyString,
                PtrError (Some (mkError BadRequest
                                  (Sprintf "user ID cannot be empty" []) nil_error))),
               h').
Proof. unfold GetUser. rewrite String.eqb_refl. run_store. by eexists. Qed.

Lemma GetUser_404 any Sprintf (h : store) :
  GetUser any Sprintf "404" h
  = Ret ((EmptyString,
          PtrError (Some (mkError NotFound "user not found in database" sql_ErrNoRows))),
         h).
Proof. reflexivity. Qed.

Lemma GetUser_500 any Sprintf (h : store) :
  ∃ h', GetUser any Sprintf "500" h
        = Ret ((EmptyString,
                PtrError (Some (mkError Internal "database connection failed"
                                  (Foreign "timeout after 30s" nil_error)))),
               h').
Proof.
  unfold GetUser.
  change (String.eqb "500" EmptyString) with false.
  change (String.eqb "500" "404") with false.
  rewrite String.eqb_refl. run_store. by eexists.
Qed.

Lemma GetUser_other any Sprintf (id : string) (h : store) :
  id ≠ EmptyString → id ≠ "404" → id ≠ "500" →
  GetUser any Sprintf id h = Ret (("User: " +:+ id, nil_error), h).
Proof.
  intros H0 H1 H2. unfold GetUser.
  apply String.eqb_neq in H0, H1, H2. by rewrite H0, H1, H2.
Qed.

(** X12: [GetUser] never panics, in any store.  It fails exactly on the
    ids [""], ["404"] and ["500"], with no data and an error of code
    BadRequest, NotFound and Internal respectively, and on every other
    id it returns ["User: " + id] and no error. *)
Theorem GetUser_classifies
    (any : Type) (Sprintf : string → list any → string) (id : string) (h : store) :
  ∃ data e h',
    GetUser any Sprintf id h = Ret ((data, e), h')
    ∧ (e = nil_error ↔ id ∉ [EmptyString; "404"; "500"])
    ∧ data = (if is_nil e then "User: " +:+ id else EmptyString)
    ∧ GetCode e = Ret (if String.eqb id EmptyString then BadRequest
                       else if String.eqb id "404" then NotFound
                       else if String.eqb id "500" then Internal
                       else EmptyString).
Proof.
  destruct (decide (id = EmptyString)) as [ -> | H0 ].
  { destruct (GetUser_empty any Sprintf h) as (h' & ->).
    eexists _, _, h'. split; [ done | ]. repeat split; try done.
    intros H. exfalso. apply H. set_solver. }
  destruct (decide (id = "404")) as [ -> | H1 ].
  { rewrite GetUser_404. eexists _, _, h. split; [ done | ].
    repeat split; try done. intros H. exfalso. apply H. set_solver. }
  destruct (decide (id = "500")) as [ -> | H2 ].
  { destruct (GetUser_500 any Sprintf h) as (h' & ->).
    eexists _, _, h'. split; [ done | ]. repeat split; try done.
    intros H. exfalso. apply H. set_solver. }
  rewrite (GetUser_other any Sprintf id h H0 H1 H2).
  eexists _, _, h. split; [ done | ].
  rewrite (proj2 (String.eqb_neq _ _) H0), (proj2 (String.eqb_neq _ _) H1),
    (proj2 (String.eqb_neq _ _) H2).
  repeat split; try done. intros _.
  rewrite !elem_of_cons, elem_of_nil. tauto.
Qed.

Lemma ValidateUserInput_empty any Sprintf int_any (h : store) :
  ValidateUserInput any Sprintf int_any EmptyString h = Ret (ErrInvalidInput, h).
Proof. reflexivity. Qed.

Lemma ValidateUserInput_short any Sprintf int_any (input : string) (h : store) :
  input ≠ EmptyString → (String.length input < 3)%nat →
  ∃ msg h', ValidateUserInput any Sprintf int_any input h
            = Ret (PtrError (Some (mkError Validation msg nil_error)), h').
Proof.
  intros H0 Hlen. unfold ValidateUserInput.
  apply String.eqb_neq in H0. rewrite H0.
  apply Nat.ltb_lt in Hlen. rewrite Hlen.
  run_store. by eexists _, _.
Qed.

Lemma ValidateUserInput_long any Sprintf int_any (input : string) (h : store) :
  (3 ≤ String.length input)%nat →
  ValidateUserInput any Sprintf int_any input h = Ret (nil_error, h).
Proof.
  intros Hlen. unfold ValidateUserInput.
  destruct input as [ | a input ]; [ simpl in Hlen; lia | ].
  simpl String.eqb. cbv iota.
  apply Nat.ltb_ge in Hlen. by rewrite Hlen.
Qed.

(** X13: [ValidateUserInput] never panics, in any store.  It accepts
    exactly the inputs of three bytes or more; the empty input is
    refused with the package's [ErrInvalidInput], of code BadRequest, and
    an input of one or two bytes with an error of code Validation. *)
Theorem ValidateUserInput_classifies
    (any : Type) (Sprintf : string → list any → string) (int_any : Z → any)
    (input : string) (h : store) :
  ∃ e h',
    ValidateUserInput any Sprintf int_any input h = Ret (e, h')
    ∧ (e = nil_error ↔ (3 ≤ String.length input)%nat)
    ∧ (e = ErrInvalidInput ↔ input = EmptyString)
    ∧ GetCode e = Ret (if String.eqb input EmptyString then BadRequest
                       else if (String.length input <? 3)%nat then Validation
                       else EmptyString).
Proof.
  destruct (decide (input = EmptyString)) as [ -> | H0 ].
  { rewrite ValidateUserInput_empty. eexists _, h. split; [ done | ].
    repeat split; try done. simpl. lia. }
  destruct (decide (String.length input < 3)%nat) as [ Hlen | Hlen ].
  - destruct (ValidateUserInput_short any Sprintf int_any input h H0 Hlen)
      as (msg & h' & ->).
    eexists _, h'. split; [ done | ].
    rewrite (proj2 (String.eqb_neq _ _) H0), (proj2 (Nat.ltb_lt _ _) Hlen).
    repeat split; try done. lia.
  - rewrite (ValidateUserInput_long any Sprintf int_any input h) by lia.
    eexists _, h. split; [ done | ].
    rewrite (proj2 (String.eqb_neq _ _) H0).
    assert (E1 : (String.length input <? 3)%nat = false) by (apply Nat.ltb_ge; lia).
    rewrite E1. repeat split; try done. lia.
Qed.

Section Process.
Context (any : Type) (Sprintf : string → list any → string) (int_any : Z → any).

Lemma ProcessUserRequest_refused (userID input : string) (w : World) e h1 :
  ValidateUserInput any Sprintf int_any input (builders w) = Ret (e, h1) →
  is_nil e = false →
  ProcessUserRequest any Sprintf int_any userID input w
  = Ret (e, mkWorld h1 (stdout w)).
Proof.
  intros Hv He. unfold ProcessUserRequest, mbind, Prog_bind, call.
  rewrite Hv. by rewrite He.
Qed.

Lemma ProcessUserRequest_failed (userID input : string) (w : World) d e h1 h2 :
  ValidateUserInput any Sprintf int_any input (builders w) = Ret (nil_error, h1) →
  GetUser any Sprintf userID h1 = Ret ((d, e), h2) →
  is_nil e = false →
  ProcessUserRequest any Sprintf int_any userID input w
  = Ret (PtrError (Some (mkError Internal "failed during user processing" e)),
         mkWorld h2 (stdout w)).
Proof.
  intros Hv Hg He. unfold ProcessUserRequest, mbind, Prog_bind, call.
  rewrite Hv. simpl. rewrite Hg. simpl. rewrite He. simpl.
  unfold WrapIfErr, Wrap. by rewrite He.
Qed.

Lemma ProcessUserRequest_done (userID input : string) (w : World) d h1 h2 :
  ValidateUserInput any Sprintf int_any input (builders w) = Ret (nil_error, h1) →
  GetUser any Sprintf userID h1 = Ret ((d, nil_error), h2) →
  ProcessUserRequest any Sprintf int_any userID input w
  = Ret (nil_error,
         mkWorld h2 (stdout w ++ [ ("Successfully processed: " +:+ d)%string ])%list).
Proof.
  intros Hv Hg. unfold ProcessUserRequest, mbind, Prog_bind, call.
  rewrite Hv. simpl. by rewrite Hg.
Qed.

(** What [ProcessUserRequest] returns and prints, case by case. *)
Lemma ProcessUserRequest_cases (userID input : string) (w : World) :
  ∃ e w',
    ProcessUserRequest any Sprintf int_any userID input w = Ret (e, w')
    ∧ stdout w' = (if is_nil e
                   then (stdout w
                           ++ [ ("Successfully processed: User: " +:+ userID)%string ])%list
                   else stdout w)
    ∧ ((input = EmptyString ∧ e = ErrInvalidInput)
       ∨ (input ≠ EmptyString ∧ (String.length input < 3)%nat
          ∧ ∃ msg, e = PtrError (Some (mkError Validation msg nil_error)))
       ∨ ((3 ≤ String.length input)%nat ∧ userID = EmptyString
          ∧ ∃ msg, e = PtrError (Some (mkError Internal "failed during user processing"
                           (PtrError (Some (mkError BadRequest msg nil_error))))))
       ∨ ((3 ≤ String.length input)%nat ∧ userID = "404"
          ∧ e = PtrError (Some (mkError Internal "failed during user processing"
                  (PtrError (Some (mkError NotFound "user not found in database"
                                     sql_ErrNoRows))))))
       ∨ ((3 ≤ String.length input)%nat ∧ userID = "500"
          ∧ e = PtrError (Some (mkError Internal "failed during user processing"
                  (PtrError (Some (mkError Internal "database connection failed"
                                     (Foreign "timeout after 30s" nil_error)))))))
       ∨ ((3 ≤ String.length input)%nat
          ∧ (userID ∉ [ EmptyString; "404"; "500" ])
          ∧ e = nil_error)).
Proof.
  destruct (decide (input = EmptyString)) as [ -> | H0 ].
  { eexists _, _. split; [ by apply ProcessUserRequest_refused | ].
    split; [ done | ]. by left. }
  destruct (decide (String.length input < 3)%nat) as [ Hlen | Hlen ].
  { destruct (ValidateUserInput_short any Sprintf int_any input (builders w) H0 Hlen)
      as (msg & h1 & Hv).
    eexists _, _. split; [ by apply (ProcessUserRequest_refused _ _ _ _ _ Hv) | ].
    split; [ done | ]. right; left. eauto. }
  assert (Hge : (3 ≤ String.length input)%nat) by lia.
  pose proof (ValidateUserInput_long any Sprintf int_any input (builders w) Hge) as Hv.
  destruct (decide (userID = EmptyString)) as [ -> | U0 ].
  { destruct (GetUser_empty any Sprintf (builders w)) as (h2 & Hg).
    eexists _, _. split; [ by apply (ProcessUserRequest_failed _ _ _ _ _ _ _ Hv Hg) | ].
    split; [ done | ]. do 2 right; left. eauto. }
  destruct (decide (userID = "404")) as [ -> | U1 ].
  { pose proof (GetUser_404 any Sprintf (builders w)) as Hg.
    eexists _, _. split; [ by apply (ProcessUserRequest_failed _ _ _ _ _ _ _ Hv Hg) | ].
    split; [ done | ]. do 3 right; left. eauto. }
  destruct (decide (userID = "500")) as [ -> | U2 ].
  { destruct (GetUser_500 any Sprintf (builders w)) as (h2 & Hg).
    eexists _, _. split; [ by apply (ProcessUserRequest_failed _ _ _ _ _ _ _ Hv Hg) | ].
    split; [ done | ]. do 4 right; left. eauto. }
  pose proof (GetUser_other any Sprintf userID (builders w) U0 U1 U2) as Hg.
  eexists _, _. split; [ by apply (ProcessUserRequest_done _ _ _ _ _ _ Hv Hg) | ].
  split; [ done | ]. do 5 right. repeat split; try done.
  rewrite !elem_of_cons, elem_of_nil. tauto.
Qed.

End Process.

(** X14: [ProcessUserRequest] never panics, in any store.  It succeeds
    exactly when the input has three bytes or more and the user id is none
    of [""], ["404"], ["500"]; it then prints the one line
    ["Successfully processed: User: " + userID], and prints nothing
    otherwise.  [GetCode] of what it returns is BadRequest for the empty
    input, Validation for an input of one or two bytes, and Internal for
    every failure of the repository, whichever code the repository gave. *)
Theorem ProcessUserRequest_classifies
    (any : Type) (Sprintf : string → list any → string) (int_any : Z → any)
    (userID input : string) (w : World) :
  ∃ e w',
    ProcessUserRequest any Sprintf int_any userID input w = Ret (e, w')
    ∧ (e = nil_error ↔
         (3 ≤ String.length input)%nat ∧ (userID ∉ [ EmptyString; "404"; "500" ]))
    ∧ stdout w' = (if is_nil e
                   then (stdout w
                           ++ [ ("Successfully processed: User: " +:+ userID)%string ])%list
                   else stdout w)
    ∧ GetCode e = Ret (if String.eqb input EmptyString then BadRequest
                       else if (String.length input <? 3)%nat then Validation
                       else if bool_decide (userID ∈ [ EmptyString; "404"; "500" ])
                            then Internal
                            else EmptyString).
Proof.
  destruct (ProcessUserRequest_cases any Sprintf int_any userID input w)
    as (e & w' & Hrun & Hout & Hcases).
  exists e, w'. split; [ exact Hrun | ]. split; [ | split; [ exact Hout | ] ].
  - destruct Hcases as [ (-> & ->) | [ (H0 & Hlen & msg & ->)
      | [ (Hge & -> & msg & ->) | [ (Hge & -> & ->) | [ (Hge & -> & ->)
      | (Hge & Hid & ->) ] ] ] ] ]; split; try done; intros [ Hge' Hid' ];
      try (simpl in Hge'; lia); exfalso; apply Hid';
      rewrite !elem_of_cons; tauto.
  - destruct Hcases as [ (-> & ->) | [ (H0 & Hlen & msg & ->)
      | [ (Hge & -> & msg & ->) | [ (Hge & -> & ->) | [ (Hge & -> & ->)
      | (Hge & Hid & ->) ] ] ] ] ].
    + reflexivity.
    + by rewrite (proj2 (String.eqb_neq _ _) H0), (proj2 (Nat.ltb_lt _ _) Hlen).
    + destruct input as [ | a input ]; [ simpl in Hge; lia | ].
      simpl String.eqb. cbv iota. by rewrite (proj2 (Nat.ltb_ge _ _) Hge).
    + destruct input as [ | a input ]; [ simpl in Hge; lia | ].
      simpl String.eqb. cbv iota. by rewrite (proj2 (Nat.ltb_ge _ _) Hge).
    + destruct input as [ | a input ]; [ simpl in Hge; lia | ].
      simpl String.eqb. cbv iota. by rewrite (proj2 (Nat.ltb_ge _ _) Hge).
    + destruct input as [ | a input ]; [ simpl in Hge; lia | ].
      simpl String.eqb. cbv iota. rewrite (proj2 (Nat.ltb_ge _ _) Hge).
      by rewrite (bool_decide_eq_false_2 _ Hid).
Qed.

(** X15: no error returned by [ProcessUserRequest] has the code NotFound
    for [IsCode], yet [errors.Is] with a NotFound target, such as the
    package's [ErrUserNotFound], matches what is returned for the user id
    ["404"] and a valid input, and nothing else: the repository's
    NotFound lies under the Internal wrapper. *)
Theorem ProcessUserRequest_NotFound_only_by_errors_Is
    (any : Type) (Sprintf : string → list any → string) (int_any : Z → any)
    (userID input : string) (w : World) (m : string) (x : error) :
  ∃ e w',
    ProcessUserRequest any Sprintf int_any userID input w = Ret (e, w')
    ∧ IsCode e NotFound = Ret false
    ∧ errors_Is e (Some (mkError NotFound m x))
      = Ret (bool_decide ((3 ≤ String.length input)%nat ∧ userID = "404")).
Proof.
  destruct (ProcessUserRequest_cases any Sprintf int_any userID input w)
    as (e & w' & Hrun & _ & Hcases).
  exists e, w'. split; [ exact Hrun | ].
  destruct Hcases as [ (-> & ->) | [ (H0 & Hlen & msg & ->)
    | [ (Hge & -> & msg & ->) | [ (Hge & -> & ->) | [ (Hge & -> & ->)
    | (Hge & Hid & ->) ] ] ] ] ]; (split; [ reflexivity | ]).
  - rewrite bool_decide_eq_false_2; [ reflexivity | simpl; lia ].
  - rewrite bool_decide_eq_false_2; [ reflexivity | lia ].
  - rewrite bool_decide_eq_false_2; [ reflexivity | ]. intros [ _ ? ]. discriminate.
  - rewrite bool_decide_eq_true_2; [ reflexivity | done ].
  - rewrite bool_decide_eq_false_2; [ reflexivity | ]. intros [ _ ? ]. discriminate.
  - rewrite bool_decide_eq_false_2; [ reflexivity | ]. intros [ _ -> ].
    apply Hid. rewrite !elem_of_cons. tauto.
Qed.

(** * Layers of wrapping, and codes as classes *)

Lemma Wrap_boxed_not_nil (e : error) (c : Code) (m : string) :
  as_error (Wrap e c m) ≠ nil_error.
Proof. discriminate. Qed.

(** X16: wrapping an error layer after layer keeps every layer in the
    string form: the outermost ["[<code>] <message>: "] comes first, then
    the inner ones in order, then the string of the error wrapped first;
    [GetCode] and [GetMessage] see the outermost layer only. *)
Theorem Wrap_layers (e0 : error) (layers : list (Code * string))
    (c : Code) (m : string) (H : e0 ≠ nil_error) :
  let inner := foldr (λ cm e, as_error (Wrap e cm.1 cm.2)) e0 layers in
  Error_Error (Wrap inner c m)
  = Ret ("[" +:+ c +:+ "] " +:+ m +:+ ": "
           +:+ foldr (λ cm acc, "[" +:+ cm.1 +:+ "] " +:+ cm.2 +:+ ": " +:+ acc)
                     (fmt_v e0) layers)
  ∧ GetCode (as_error (Wrap inner c m)) = Ret c
  ∧ GetMessage (as_error (Wrap inner c m)) = Ret m.
Proof.
  intros inner.
  assert (Hinner : inner ≠ nil_error).
  { subst inner. destruct layers as [ | cm layers ]; [ exact H | discriminate ]. }
  assert (Hfmt : fmt_v inner
                 = foldr (λ cm acc, "[" +:+ cm.1 +:+ "] " +:+ cm.2 +:+ ": " +:+ acc)
                         (fmt_v e0) layers).
  { subst inner. clear Hinner. induction layers as [ | [ c' m' ] layers IH ];
      [ reflexivity | ].
    cbn [foldr fst snd]. rewrite <- IH.
    set (rest := foldr _ e0 layers).
    assert (Hrest : rest ≠ nil_error).
    { subst rest. destruct layers as [ | cm layers ]; [ exact H | discriminate ]. }
    rewrite (Wrap_non_nil rest c' m' Hrest). simpl. unfold Error_Sprintf. simpl.
    by destruct rest. }
  rewrite (Wrap_non_nil inner c m Hinner). split; [ | done ].
  simpl. unfold Error_Sprintf. simpl. rewrite <- Hfmt. by destruct inner.
Qed.

Lemma Wrap_layers_witness :
  Error_Error (Wrap (foldr (λ cm e, as_error (Wrap e cm.1 cm.2))
                           (Foreign "eof" nil_error)
                           [ (Internal, "query"); (NotFound, "no row") ])
                    Timeout "request")
  = Ret "[TIMEOUT] request: [INTERNAL] query: [NOT_FOUND] no row: eof".
Proof.
  apply (proj1 (Wrap_layers (Foreign "eof" nil_error)
                  [ (Internal, "query"); (NotFound, "no row") ] Timeout "request"
                  ltac:(discriminate))).
Defined.

(** X17: an error has at most one code: the nine predefined codes are
    pairwise different, and [IsCode] cannot be true of one error for two
    different codes, so the cases of a switch over [IsCode] exclude each
    other. *)
Theorem IsCode_at_most_one_code :
  NoDup [ Conflict; Internal; NotFound; BadRequest; AlreadyExists;
          Unauthorized; Forbidden; Timeout; Validation ]
  ∧ ∀ (e : error) (c1 c2 : Code),
      IsCode e c1 = Ret true → IsCode e c2 = Ret true → c1 = c2.
Proof.
  split.
  - apply (bool_decide_unpack _). vm_compute. exact I.
  - intros e c1 c2 H1 H2.
    destruct (first_Error e) as [ [ v | ] | ] eqn:Hf.
    + rewrite (IsCode_found e v c1 Hf) in H1.
      rewrite (IsCode_found e v c2 Hf) in H2.
      injection H1 as H1. injection H2 as H2.
      apply bool_decide_eq_true_1 in H1, H2. congruence.
    + destruct (readers_panic_on_nil_pointer e c1 Hf) as (Hp & _). congruence.
    + rewrite (IsCode_none e c1 Hf) in H1. discriminate.
Qed.

(** X18: between Typed Errors, matching by [Is] is an equivalence: every
    Typed Error matches itself, matching does not depend on which of the
    two is the receiver, and two Typed Errors that match a third match
    each other. *)
Theorem Error_Is_equivalence (a b c : Error) :
  Error_Is (Some a) (PtrError (Some a)) = Ret true
  ∧ Error_Is (Some a) (PtrError (Some b)) = Error_Is (Some b) (PtrError (Some a))
  ∧ (Error_Is (Some a) (PtrError (Some b)) = Ret true →
     Error_Is (Some b) (PtrError (Some c)) = Ret true →
     Error_Is (Some a) (PtrError (Some c)) = Ret true).
Proof.
  rewrite !Error_Is_PtrError. split; [ | split ].
  - f_equal. by apply bool_decide_eq_true_2.
  - f_equal. apply bool_decide_ext. split; congruence.
  - intros H1 H2. injection H1 as H1. injection H2 as H2.
    apply bool_decide_eq_true_1 in H1, H2.
    f_equal. apply bool_decide_eq_true_2. congruence.
Qed.
